(** * resolve.py: a recursive DNS resolver, shallowly embedded in Rocq.

    The message codec and the UDP transport ([dns.message], [dns.query],
    [dns.name] of dnspython) are external collaborators: the transport is
    a section variable [udp] (a static hierarchy: the reply depends on the
    query and the server address only), the name parser is a section
    variable [name_from_text].  Everything resolve.py itself computes is
    written out below, following the source line by line.

    Effects are modelled by a small writer/exception monad [M]: a run
    produces an [Outcome] (a normal return, a raised exception, or an
    exhausted recursion budget) and the trace of observable events
    (queries built, datagrams sent, results printed). *)

From Stdlib Require Import ZArith List String Ascii Lia.
From stdpp Require Import base gmap strings list fin_maps.
Import ListNotations.
Open Scope string_scope.
Open Scope Z_scope.

(** ** Record type codes ([dns.rdatatype]) *)

Definition rdatatype_A : Z := 1.
Definition rdatatype_NS : Z := 2.
Definition rdatatype_CNAME : Z := 5.
Definition rdatatype_SOA : Z := 6.
Definition rdatatype_MX : Z := 15.
Definition rdatatype_TXT : Z := 16.
Definition rdatatype_AAAA : Z := 28.

(** ** Python string helpers *)

(** [s[:-1]] *)
Definition py_drop_last (s : string) : string :=
  substring 0 (String.length s - 1)%nat s.

(** The characters [str.split()] treats as whitespace (ASCII range):
    \t \n \v \f \r, the separators \x1c..\x1f, and the space. *)
Definition is_ws (c : ascii) : bool :=
  let n := nat_of_ascii c in (
  ((9 <=? n) && (n <=? 13)) || ((28 <=? n) && (n <=? 32)))%nat.

Definition cons_word (w : string) (ts : list string) : list string :=
  match w with
  | EmptyString => ts
  | _ => w :: ts
  end.

(** [split_go s] is the word in front of the first whitespace of [s]
    (possibly empty) and the list of words after it. *)
Fixpoint split_go (s : string) : string * list string :=
  match s with
  | EmptyString => (EmptyString, [])
  | String c r =>
      let (w, ts) := split_go r in
      if is_ws c then (EmptyString, cons_word w ts) else (String c w, ts)
  end.

(** [str.split()]: maximal runs of non-whitespace, empty words dropped. *)
Definition py_split (s : string) : list string :=
  let (w, ts) := split_go s in cons_word w ts.

(** Decimal rendering of a natural number ([%d]). *)
Fixpoint dec_digits (fuel : nat) (n : N) (acc : string) : string :=
  match fuel with
  | O => acc
  | S f =>
      let acc' := String (ascii_of_N (48 + N.modulo n 10)) acc in
      if (n <? 10)%N then acc' else dec_digits f (n / 10)%N acc'
  end.

Definition N_to_dec (n : N) : string := dec_digits (S (N.size_nat n)) n EmptyString.

(** [dns.rdatatype.to_text] *)
Definition rdatatype_to_text (t : Z) : string :=
  if t =? rdatatype_A then "A"
  else if t =? rdatatype_NS then "NS"
  else if t =? rdatatype_CNAME then "CNAME"
  else if t =? rdatatype_SOA then "SOA"
  else if t =? rdatatype_MX then "MX"
  else if t =? rdatatype_TXT then "TXT"
  else if t =? rdatatype_AAAA then "AAAA"
  else "TYPE" ++ N_to_dec (Z.to_N t).

(** ** Messages (the codec's data model) *)

(** One rdata: its type code, its text form [str(rdata)] (for an A
    record the dotted quad, for a CNAME the absolute target with its
    trailing dot, for an MX ["10 mail.example.com."]), and the two MX
    attributes [preference] and [exchange] (only read for MX rdatas). *)
Record Rdata := mkRdata {
  rdtype : Z;
  rd_text : string;
  preference : Z;
  exchange : string
}.

(** An RRset: owner name (its text, absolute), TTL, type, rdatas; the
    class is IN throughout. *)
Record RRset := mkRRset {
  rrs_name : string;
  rrs_ttl : N;
  rrs_rdtype : Z;
  rrs_items : list Rdata
}.

Record Message := mkMessage {
  answer : list RRset;
  authority : list RRset;
  additional : list RRset
}.

(** [dns.message.make_query(target_name, qtype)] *)
Record Query := mkQuery { q_name : string; q_type : Z }.

(** [str(rrset)]: dnspython's [RRset.to_text()], one line per rdata
    ["name ttl IN TYPE rdata"] joined by newlines; an empty rdataset
    prints ["name IN TYPE"]. *)
Definition rrset_line (rr : RRset) (rd : Rdata) : string :=
  rrs_name rr ++ " " ++ N_to_dec (rrs_ttl rr) ++ " IN "
    ++ rdatatype_to_text (rrs_rdtype rr) ++ " " ++ rd_text rd.

Definition rrset_to_text (rr : RRset) : string :=
  match rrs_items rr with
  | [] => rrs_name rr ++ " IN " ++ rdatatype_to_text (rrs_rdtype rr)
  | items => String.concat (String "010" EmptyString) (map (rrset_line rr) items)
  end.

(** ** Exceptions, events and the monad *)

(** Exceptions raised by the collaborators: [dns.exception.Timeout] from
    the transport, decoding failures of the codec ([dns.message]'s
    [FormError], [dns.query]'s [BadResponse]), and [dns.name]'s parse
    errors. *)
Inductive Exn := Timeout | FormError | BadResponse | NameError.

(** The dictionaries built by [collect_results]:
    [{"alias": name, "name": answer}] for CNAME (the rdata object itself),
    [{"name": ..., "address": ...}] for A and AAAA,
    [{"name": ..., "preference": ..., "exchange": ...}] for MX. *)
Inductive Entry :=
  | ECname (name : Rdata) (alias : string)
  | EAddr (name : string) (address : string)
  | EMx (name : string) (pref : Z) (exch : string).

Abbreviation Dict := (gmap string (list Entry)).

Inductive Event :=
  | EvQuery (q : Query)                (** [dns.message.make_query] *)
  | EvSend (server : string) (q : Query) (** [dns.query.udp] *)
  | EvPrint (d : Dict).                (** [print_results] *)

Inductive Outcome (A : Type) :=
  | Ok (a : A)
  | Raise (e : Exn)
  | OutOfFuel.
Arguments Ok {A} a.
Arguments Raise {A} e.
Arguments OutOfFuel {A}.

Definition M (A : Type) : Type := (Outcome A * list Event)%type.

Definition ret {A} (a : A) : M A := (Ok a, []).
Definition tell (evs : list Event) : M unit := (Ok tt, evs).

Definition bind {A B} (m : M A) (k : A -> M B) : M B :=
  match m with
  | (Ok a, t1) => let (r, t2) := k a in (r, (t1 ++ t2)%list)
  | (Raise e, t1) => (Raise e, t1)
  | (OutOfFuel, t1) => (OutOfFuel, t1)
  end.

Notation "'let*' x := m 'in' k" := (bind m (fun x => k))
  (at level 200, x name, m at level 100, k at level 200).
Notation "'do*' m 'in' k" := (bind m (fun _ => k))
  (at level 200, m at level 100, k at level 200).

(** ** The resolver *)

(* ROOT_SERVERS, current as of 19 March 2018 *)
Definition ROOT_SERVERS : list string :=
  ["198.41.0.4"; "199.9.14.201"; "192.33.4.12"; "199.7.91.13";
   "192.203.230.10"; "192.5.5.241"; "192.112.36.4"; "198.97.190.53";
   "192.36.148.17"; "192.58.128.30"; "193.0.14.129"; "199.7.83.42";
   "202.12.27.33"].

(** Result of scanning an answer section (lines 117-130): a record of
    the requested type was met, a CNAME was met first (with the value of
    [target_name] at that point), or the scan ran through, leaving
    [target_name] reassigned to the text of the last scanned record. *)
Inductive Scan :=
  | ScanMatch
  | ScanCname (target_name : string)
  | ScanNone (target_name : string).

Fixpoint scan_rdatas (qtype : Z) (target_name : string) (rs : list Rdata) : Scan :=
  match rs with
  | [] => ScanNone target_name
  | response_answer :: rs' =>
      let target_name := py_drop_last (rd_text response_answer) in
      if negb (rdtype response_answer =? qtype) then
        if rdtype response_answer =? 5 then ScanCname target_name
        else scan_rdatas qtype target_name rs'
      else ScanMatch
  end.

Fixpoint scan_answer (qtype : Z) (target_name : string) (rrsets : list RRset) : Scan :=
  match rrsets with
  | [] => ScanNone target_name
  | response_answers :: rest =>
      match scan_rdatas qtype target_name (rrs_items response_answers) with
      | ScanNone target_name' => scan_answer qtype target_name' rest
      | r => r
      end
  end.

(** Glue extraction (lines 135-153): for every token of [str(rrset)]
    equal to ["A"], the last token of that text. *)
Definition glue_of_rrset (response_additional : RRset) : list string :=
  let resp_elements := py_split (rrset_to_text response_additional) in
  flat_map (fun resp_element =>
              if String.eqb resp_element "A" then [List.last resp_elements ""] else [])
           resp_elements.

Definition extract_glue (additional : list RRset) : list string :=
  flat_map glue_of_rrset additional.

Section Resolver.

(** [dns.query.udp(q, server, 3)]: a reply or an exception. *)
Variable udp : Query -> string -> Exn + Message.

(** The [for server in root_servers_list] loop (lines 107-155); [rec] is
    the recursive call of [recursive_dns_lookup]. *)
Fixpoint server_loop (rec : string -> Z -> list string -> M (option Message))
    (dns_query : Query) (qtype : Z) (target_name : string)
    (servers : list string) : M (option Message) :=
  match servers with
  | [] => ret None
  | server :: rest =>
      match udp dns_query server with
      | inl Timeout =>
          do* tell [EvSend server dns_query] in
          server_loop rec dns_query qtype target_name rest
      | inl e => (Raise e, [EvSend server dns_query])
      | inr query_response =>
          do* tell [EvSend server dns_query] in
          match answer query_response with
          | _ :: _ =>
              match scan_answer qtype target_name (answer query_response) with
              | ScanMatch => ret (Some query_response)
              | ScanCname t => rec t qtype ROOT_SERVERS
              | ScanNone target_name' =>
                  server_loop rec dns_query qtype target_name' rest
              end
          | [] =>
              match additional query_response with
              | _ :: _ =>
                  rec target_name qtype (extract_glue (additional query_response))
              | [] => server_loop rec dns_query qtype target_name rest
              end
          end
      end
  end.

(** [recursive_dns_lookup(target_name, qtype, root_servers_list)]; the
    [fuel] bounds the recursion depth (Python's recursion limit). *)
Fixpoint recursive_dns_lookup (fuel : nat) (target_name : string) (qtype : Z)
    (root_servers_list : list string) : M (option Message) :=
  match fuel with
  | O => (OutOfFuel, [])
  | S f =>
      match root_servers_list with
      | [] => ret None
      | _ :: _ =>
          let dns_query := mkQuery target_name qtype in
          do* tell [EvQuery dns_query] in
          server_loop (recursive_dns_lookup f) dns_query qtype target_name
            root_servers_list
      end
  end.

Definition lookup (fuel : nat) (target_name : string) (qtype : Z) : M (option Message) :=
  recursive_dns_lookup fuel target_name qtype ROOT_SERVERS.

End Resolver.

(** ** The result collector *)

(** Lines 47-51: every answer record, with no type test. *)
Definition collect_cnames (name : string) (response : option Message) : list Entry :=
  match response with
  | None => []
  | Some r =>
      flat_map (fun answers => map (fun answer => ECname answer name) (rrs_items answers))
               (answer r)
  end.

(** Lines 55-62 (A, code 1) and 66-73 (AAAA, code 28). *)
Definition collect_addrs (code : Z) (response : option Message) : list Entry :=
  match response with
  | None => []
  | Some r =>
      flat_map (fun answers =>
                  flat_map (fun answer =>
                              if rdtype answer =? code
                              then [EAddr (rrs_name answers) (rd_text answer)] else [])
                           (rrs_items answers))
               (answer r)
  end.

(** Lines 77-85. *)
Definition collect_mx (response : option Message) : list Entry :=
  match response with
  | None => []
  | Some r =>
      flat_map (fun answers =>
                  flat_map (fun answer =>
                              if rdtype answer =? 15
                              then [EMx (rrs_name answers) (preference answer) (exchange answer)]
                              else [])
                           (rrs_items answers))
               (answer r)
  end.

Section Collector.

Variable udp : Query -> string -> Exn + Message.

(** [dns.name.from_text(name)]: the name's absolute text, or a parse
    error. *)
Variable name_from_text : string -> Exn + string.

Definition collect_results (fuel : nat) (name : string) : M Dict :=
  match name_from_text name with
  | inl e => (Raise e, [])
  | inr target_name =>
      let* response := lookup udp fuel target_name rdatatype_CNAME in
      let cnames := collect_cnames name response in
      let* response := lookup udp fuel target_name rdatatype_A in
      let arecords := collect_addrs 1 response in
      let* response := lookup udp fuel target_name rdatatype_AAAA in
      let aaaarecords := collect_addrs 28 response in
      let* response := lookup udp fuel target_name rdatatype_MX in
      let mxrecords := collect_mx response in
      ret (<["MX" := mxrecords]> (<["AAAA" := aaaarecords]>
             (<["A" := arecords]> (<["CNAME" := cnames]> (∅ : Dict)))))
  end.

(** The body of [main]'s loop (lines 200-207), threading [CACHE_SYSTEM]. *)
Definition main_step (fuel : nat) (CACHE_SYSTEM : gmap string Dict)
    (a_domain_name : string) : M (gmap string Dict) :=
  match CACHE_SYSTEM !! a_domain_name with
  | Some d => do* tell [EvPrint d] in ret CACHE_SYSTEM
  | None =>
      let* d := collect_results fuel a_domain_name in
      let CACHE_SYSTEM' := <[a_domain_name := d]> CACHE_SYSTEM in
      do* tell [EvPrint d] in ret CACHE_SYSTEM'
  end.

Fixpoint main_loop (fuel : nat) (names : list string)
    (CACHE_SYSTEM : gmap string Dict) : M (gmap string Dict) :=
  match names with
  | [] => ret CACHE_SYSTEM
  | a_domain_name :: rest =>
      let* c := main_step fuel CACHE_SYSTEM a_domain_name in
      main_loop fuel rest c
  end.

End Collector.

(** ** A small static hierarchy used for concrete runs *)

Definition rd (t : Z) (txt : string) : Rdata := mkRdata t txt 0 "".
Definition rrset1 (n : string) (t : Z) (rs : list Rdata) : RRset := mkRRset n 172800 t rs.

Definition glue_tld : RRset :=
  rrset1 "a.gtld-servers.net." 1 [rd 1 "192.0.2.53"].
Definition aaaa_only : RRset :=
  rrset1 "a.gtld-servers.net." 28 [rd 28 "2001:db8::53"].

(** Root refers to 192.0.2.53 for everything; that server answers
    [example.com A 93.184.216.34]. *)
Definition net_example (q : Query) (server : string) : Exn + Message :=
  if String.eqb server "192.0.2.53" then
    inr (mkMessage [rrset1 "example.com." 1 [rd 1 "93.184.216.34"]] [] [])
  else inr (mkMessage [] [] [glue_tld]).

Definition from_text_abs (s : string) : Exn + string := inr (s ++ ".").

(** Root refers to 192.0.2.53 for everything, but 10.0.0.1 sends a
    referral whose only glue is an AAAA RRset (nothing extractable). *)
Definition net_empty_glue (q : Query) (server : string) : Exn + Message :=
  if String.eqb server "10.0.0.1" then inr (mkMessage [] [] [aaaa_only])
  else net_example q server.

(** 10.0.0.1 sends a message the codec cannot decode. *)
Definition net_malformed (q : Query) (server : string) : Exn + Message :=
  if String.eqb server "10.0.0.1" then inl FormError else net_example q server.

(** Every server answers the CNAME query with an A RRset followed by a
    CNAME RRset for www.example.com, and sends empty sections for any
    other query. *)
Definition www_answer : Message :=
  mkMessage [rrset1 "www.example.com." 1 [rd 1 "93.184.216.34"];
             rrset1 "www.example.com." 5 [rd 5 "example.com."]] [] [].
Definition net_mixed_answer (q : Query) (server : string) : Exn + Message :=
  if q_type q =? rdatatype_CNAME then inr www_answer else inr (mkMessage [] [] []).

(** 10.0.0.1 answers with an MX record only, 10.0.0.2 refers to
    192.0.2.53, which knows example.com and nothing else. *)
Definition mx_rd : Rdata := mkRdata 15 "10 mail.example.com." 10 "mail.example.com.".
Definition net_mx_then_referral (q : Query) (server : string) : Exn + Message :=
  if String.eqb server "10.0.0.1" then
    inr (mkMessage [rrset1 "example.com." 15 [mx_rd]] [] [])
  else if String.eqb server "10.0.0.2" then inr (mkMessage [] [] [glue_tld])
  else if String.eqb server "192.0.2.53" then
    (if String.eqb (q_name q) "example.com." then
       inr (mkMessage [rrset1 "example.com." 1 [rd 1 "93.184.216.34"]] [] [])
     else inl Timeout)
  else inl Timeout.

(** Every server answers every query with the A-then-CNAME answer. *)
Definition net_alias (q : Query) (server : string) : Exn + Message := inr www_answer.

(** Every server times out. *)
Definition net_down (q : Query) (server : string) : Exn + Message := inl Timeout.


(** The four record types [collect_results] asks for, with their keys. *)
Definition type_tags : list (Z * string) :=
  [(rdatatype_CNAME, "CNAME"); (rdatatype_A, "A"); (rdatatype_AAAA, "AAAA");
   (rdatatype_MX, "MX")].

(** ** Printing ([print_results], lines 174-182) *)

(** [str(n)] of a Python int. *)
Definition Z_to_dec (z : Z) : string :=
  if z <? 0 then "-" ++ N_to_dec (Z.to_N (- z)) else N_to_dec (Z.to_N z).

(** The keys of [FORMATS], in order. *)
Definition FORMATS : list string := ["CNAME"; "A"; "AAAA"; "MX"].

(** [fmt_str.format] applied to the entry ([**result]) for the template of [rtype]: [None] when
    the template names a key the dictionary lacks ([KeyError]).  The
    CNAME entry's ["name"] is an rdata and the other ["name"]s are
    [dns.name.Name]s; [format] prints both with [str]. *)
Definition format_result (rtype : string) (result : Entry) : option string :=
  match result with
  | ECname name alias =>
      if String.eqb rtype "CNAME" then Some (alias ++ " is an alias for " ++ rd_text name)
      else None
  | EAddr name address =>
      if String.eqb rtype "A" then Some (name ++ " has address " ++ address)
      else if String.eqb rtype "AAAA" then Some (name ++ " has IPv6 address " ++ address)
      else None
  | EMx name pref exch =>
      if String.eqb rtype "MX"
      then Some (name ++ " mail is handled by " ++ Z_to_dec pref ++ " " ++ exch)
      else None
  end.

(** The inner loop: the lines printed, and [false] if a [KeyError]
    stopped it. *)
Fixpoint print_entries (rtype : string) (rs : list Entry) : list string * bool :=
  match rs with
  | [] => ([], true)
  | result :: rs' =>
      match format_result rtype result with
      | None => ([], false)
      | Some line => let (ls, ok) := print_entries rtype rs' in (line :: ls, ok)
      end
  end.

(** The outer loop over [FORMATS], with [results.get(rtype, [])]. *)
Fixpoint print_formats (fmts : list string) (results : Dict) : list string * bool :=
  match fmts with
  | [] => ([], true)
  | rtype :: fmts' =>
      let (ls, ok) := print_entries rtype (default [] (results !! rtype)) in
      if ok then let (ls', ok') := print_formats fmts' results in ((ls ++ ls')%list, ok')
      else (ls, false)
  end.

Definition print_results (results : Dict) : list string * bool :=
  print_formats FORMATS results.

Open Scope list_scope.

(** ** Predicates used in the statements *)

(** The answer records in the order the double loop of lines 117-119
    visits them. *)
Definition answer_rdatas (m : Message) : list Rdata := concat (map rrs_items (answer m)).

(** A record the scan passes over: neither of the requested type nor a
    CNAME. *)
Definition passed_over (qtype : Z) (x : Rdata) : Prop :=
  rdtype x <> qtype /\ rdtype x <> 5.

(** The value [target_name] holds after the scan has passed over [rs]. *)
Fixpoint last_target (target_name : string) (rs : list Rdata) : string :=
  match rs with
  | [] => target_name
  | x :: rs' => last_target (py_drop_last (rd_text x)) rs'
  end.

(** The [EvSend] events of a run through [servers] in order. *)
Definition sends (q : Query) (servers : list string) : list Event :=
  map (fun s => EvSend s q) servers.

(** The dictionaries printed in a trace, in order. *)
Definition printed (t : list Event) : list Dict :=
  omap (fun e => match e with EvPrint d => Some d | _ => None end) t.

(** [m]'s answer section, in scan order, meets a record of type [qtype]
    before any CNAME. *)
Definition match_first (qtype : Z) (m : Message) : Prop :=
  exists pre x post, answer_rdatas m = pre ++ x :: post /\
    Forall (passed_over qtype) pre /\ rdtype x = qtype.

(** An event of a resolution for type [qtype]: a query built for, or a
    datagram carrying a query for, that type (and no printing). *)
Definition query_of_type (qtype : Z) (e : Event) : Prop :=
  match e with
  | EvQuery q => q_type q = qtype
  | EvSend _ q => q_type q = qtype
  | EvPrint _ => False
  end.

(** The lines [print_results] prints when no entry raises [KeyError]:
    for each key of [FORMATS] in order, each entry under it formatted. *)
Definition formatted_lines (results : Dict) : list string :=
  flat_map (fun rtype => omap (format_result rtype) (default [] (results !! rtype))) FORMATS.

Section Predicates.

Variable udp : Query -> string -> Exn + Message.

(** [skips q qtype tn servers tn']: each address of [servers] in turn,
    with [target_name] going from [tn] to [tn'], gives no usable next
    step: it times out, or sends empty answer and additional sections, or
    sends a non-empty answer section with no record of type [qtype] and
    no CNAME. *)
Inductive skips (q : Query) (qtype : Z) : string -> list string -> string -> Prop :=
  | skips_nil tn : skips q qtype tn [] tn
  | skips_timeout tn s rest tn' :
      udp q s = inl Timeout -> skips q qtype tn rest tn' ->
      skips q qtype tn (s :: rest) tn'
  | skips_silent tn s rest tn' m :
      udp q s = inr m -> answer m = [] -> additional m = [] ->
      skips q qtype tn rest tn' -> skips q qtype tn (s :: rest) tn'
  | skips_unusable tn s rest tn' m :
      udp q s = inr m -> answer m <> [] ->
      Forall (passed_over qtype) (answer_rdatas m) ->
      skips q qtype (last_target tn (answer_rdatas m)) rest tn' ->
      skips q qtype tn (s :: rest) tn'.

(** [escapes fuel q qtype tn s tr']: address [s] sends a CNAME before any
    record of type [qtype], or a referral, and the nested resolution
    (from [ROOT_SERVERS], resp. from the extracted glue) returns
    NotFound with trace [tr']. *)
Definition escapes (fuel : nat) (q : Query) (qtype : Z) (tn s : string)
    (tr' : list Event) : Prop :=
  exists m, udp q s = inr m /\
    ((answer m <> [] /\
      exists pre r post, answer_rdatas m = pre ++ r :: post /\
        Forall (passed_over qtype) pre /\ rdtype r = 5 /\ qtype <> 5 /\
        recursive_dns_lookup udp fuel (py_drop_last (rd_text r)) qtype ROOT_SERVERS
          = (Ok None, tr'))
     \/ (answer m = [] /\ additional m <> [] /\
         recursive_dns_lookup udp fuel tn qtype (extract_glue (additional m))
           = (Ok None, tr'))).

(** [m] is the reply of some address [s] to a query for type [qtype],
    and that datagram is the last event of [tr]. *)
Definition replied (qtype : Z) (m : Message) (tr : list Event) : Prop :=
  exists q s pre, udp q s = inr m /\ q_type q = qtype /\ tr = pre ++ [EvSend s q].

End Predicates.

Fixpoint no_ws (s : string) : bool :=
  match s with
  | EmptyString => true
  | String c r => negb (is_ws c) && no_ws r
  end.

(** A single [str.split()] token: non-empty, without whitespace. *)
Definition is_token (t : string) : Prop := t <> EmptyString /\ no_ws t = true.

Definition line_tokens (rr : RRset) (x : Rdata) : list string :=
  [rrs_name rr; N_to_dec (rrs_ttl rr); "IN"; rdatatype_to_text (rrs_rdtype rr); rd_text x].


(** * Properties *)

Lemma last_target_last (tn : string) (rs : list Rdata) (d : Rdata) :
  rs <> [] -> last_target tn rs = py_drop_last (rd_text (List.last rs d)).
Proof.
  revert tn. induction rs as [|x rs IH]; intros tn H; [congruence|].
  destruct rs as [|y rs']; [reflexivity|].
  change (last_target (py_drop_last (rd_text x)) (y :: rs') =
          py_drop_last (rd_text (List.last (y :: rs') d))).
  apply IH. discriminate.
Qed.

Lemma scan_rdatas_app (qtype : Z) (tn : string) (xs ys : list Rdata) :
  scan_rdatas qtype tn (xs ++ ys) =
  match scan_rdatas qtype tn xs with
  | ScanNone tn' => scan_rdatas qtype tn' ys
  | r => r
  end.
Proof.
  revert tn. induction xs as [|x xs IH]; intros tn; [reflexivity|].
  simpl. destruct (negb (rdtype x =? qtype)); [|reflexivity].
  destruct (rdtype x =? 5); [reflexivity|]. apply IH.
Qed.

Lemma scan_answer_flat (qtype : Z) (tn : string) (rrsets : list RRset) :
  scan_answer qtype tn rrsets = scan_rdatas qtype tn (concat (map rrs_items rrsets)).
Proof.
  revert tn. induction rrsets as [|rr rrsets IH]; intros tn; [reflexivity|].
  simpl. rewrite scan_rdatas_app.
  destruct (scan_rdatas qtype tn (rrs_items rr)); auto.
Qed.

Lemma scan_rdatas_passed (qtype : Z) (tn : string) (rs : list Rdata) :
  Forall (passed_over qtype) rs -> scan_rdatas qtype tn rs = ScanNone (last_target tn rs).
Proof.
  revert tn. induction rs as [|x rs IH]; intros tn H; [reflexivity|].
  inversion H as [|? ? [Ht Hc] Hrs]; subst. simpl.
  apply Z.eqb_neq in Ht, Hc. rewrite Ht, Hc. simpl. auto.
Qed.

Lemma scan_rdatas_cname (qtype : Z) (tn : string) (pre : list Rdata) (r : Rdata)
    (post : list Rdata) :
  qtype <> 5 -> Forall (passed_over qtype) pre -> rdtype r = 5 ->
  scan_rdatas qtype tn (pre ++ r :: post) = ScanCname (py_drop_last (rd_text r)).
Proof.
  intros Hq Hpre Hr. rewrite scan_rdatas_app, scan_rdatas_passed by exact Hpre.
  simpl. rewrite Hr. destruct (Z.eqb_spec 5 qtype); [congruence|]. reflexivity.
Qed.

Lemma scan_rdatas_cname_inv (qtype : Z) (tn tgt : string) (rs : list Rdata) :
  scan_rdatas qtype tn rs = ScanCname tgt ->
  exists pre r post, rs = pre ++ r :: post /\ Forall (passed_over qtype) pre /\
    rdtype r = 5 /\ qtype <> 5 /\ tgt = py_drop_last (rd_text r).
Proof.
  revert tn. induction rs as [|x rs IH]; intros tn H; [discriminate|].
  simpl in H. destruct (Z.eqb_spec (rdtype x) qtype) as [Ht|Ht]; simpl in H; [discriminate|].
  destruct (Z.eqb_spec (rdtype x) 5) as [Hc|Hc].
  - inversion H; subst. exists [], x, rs. repeat split; auto. intros E. congruence.
  - destruct (IH _ H) as (pre & r & post & -> & Hpre & Hr & Hq & Ht').
    exists (x :: pre), r, post. repeat split; auto. constructor; [split|]; auto.
Qed.

Lemma scan_rdatas_none_inv (qtype : Z) (tn tn' : string) (rs : list Rdata) :
  scan_rdatas qtype tn rs = ScanNone tn' ->
  Forall (passed_over qtype) rs /\ tn' = last_target tn rs.
Proof.
  revert tn. induction rs as [|x rs IH]; intros tn H.
  - inversion H; auto.
  - simpl in H. destruct (Z.eqb_spec (rdtype x) qtype) as [Ht|Ht]; simpl in H; [discriminate|].
    destruct (Z.eqb_spec (rdtype x) 5) as [Hc|Hc]; [discriminate|].
    destruct (IH _ H) as [Hall ->]. split; [constructor; [split|]|]; auto.
Qed.

Section ResolverProps.

Variable udp : Query -> string -> Exn + Message.

(** ** C7 *)

(** C7: called with an empty server list, [recursive_dns_lookup] returns
    [None] (NotFound) for every name and every record type, with an empty
    trace: no query is built and no datagram is sent. *)
Theorem recursive_dns_lookup_no_servers (fuel : nat) (target_name : string) (qtype : Z) :
  recursive_dns_lookup udp (S fuel) target_name qtype [] = (Ok None, []).
Proof. reflexivity. Qed.

(** ** C3 *)

(** C3: when a server's answer for type [qtype <> CNAME] has a CNAME
    record [r] before any record of type [qtype], the loop makes one
    recursive call from [ROOT_SERVERS] with the CNAME's target (its text
    without the trailing dot) and [qtype] unchanged, and returns exactly
    what that call returns (after the one datagram to [server]). *)
Theorem cname_restarts_from_root (fuel : nat) (dns_query : Query) (qtype : Z)
    (target_name server : string) (rest : list string) (resp : Message)
    (pre : list Rdata) (r : Rdata) (post : list Rdata) :
  qtype <> rdatatype_CNAME ->
  udp dns_query server = inr resp ->
  answer_rdatas resp = pre ++ r :: post ->
  Forall (passed_over qtype) pre ->
  rdtype r = rdatatype_CNAME ->
  server_loop udp (recursive_dns_lookup udp fuel) dns_query qtype target_name
    (server :: rest) =
  let (o, t) := recursive_dns_lookup udp fuel (py_drop_last (rd_text r)) qtype ROOT_SERVERS in
  (o, EvSend server dns_query :: t).
Proof.
  unfold rdatatype_CNAME, answer_rdatas. intros Hq Hudp Hans Hpre Hr.
  simpl. rewrite Hudp. simpl.
  destruct (answer resp) as [|rr rrs] eqn:Ea.
  - simpl in Hans. destruct pre; discriminate.
  - rewrite <- Ea, scan_answer_flat, Ea, Hans, scan_rdatas_cname by assumption.
    reflexivity.
Qed.

(** ** C9 *)

(** C9: if server [s1] answers with a non-empty answer section none of
    whose records is of type [qtype] or a CNAME, [target_name] is left
    holding the text of the last scanned record minus its last
    character; if the servers after it time out and a later server [s2]
    sends a referral, the recursive call asks for that string, not for
    the name originally passed in. *)
Theorem referral_after_unusable_answer_uses_clobbered_name (fuel : nat)
    (dns_query : Query) (qtype : Z) (target_name s1 s2 : string)
    (mid rest : list string) (resp1 resp2 : Message) (d : Rdata) :
  udp dns_query s1 = inr resp1 ->
  answer_rdatas resp1 <> [] ->
  Forall (passed_over qtype) (answer_rdatas resp1) ->
  Forall (fun s => udp dns_query s = inl Timeout) mid ->
  udp dns_query s2 = inr resp2 ->
  answer resp2 = [] ->
  additional resp2 <> [] ->
  server_loop udp (recursive_dns_lookup udp fuel) dns_query qtype target_name
    (s1 :: mid ++ s2 :: rest) =
  let (o, t) := recursive_dns_lookup udp fuel
                  (py_drop_last (rd_text (List.last (answer_rdatas resp1) d))) qtype
                  (extract_glue (additional resp2)) in
  (o, EvSend s1 dns_query :: sends dns_query mid ++ EvSend s2 dns_query :: t).
Proof.
  unfold answer_rdatas. intros H1 Hne Hall Hmid H2 Ha2 Hd2.
  simpl. rewrite H1. simpl.
  destruct (answer resp1) as [|rr rrs] eqn:Ea; [simpl in Hne; congruence|].
  rewrite <- Ea, scan_answer_flat, Ea, scan_rdatas_passed by assumption.
  rewrite (last_target_last _ _ d Hne).
  set (tn := py_drop_last _).
  induction mid as [|s mid IH].
  - simpl. rewrite H2. simpl. rewrite Ha2.
    destruct (additional resp2) as [|a adds]; [congruence|].
    simpl. destruct (recursive_dns_lookup _ _ _ _ _). reflexivity.
  - inversion Hmid as [|? ? Hs Hmid']; subst. simpl. rewrite Hs. simpl.
    specialize (IH Hmid'). simpl in IH.
    destruct (server_loop _ _ _ _ _ (mid ++ s2 :: rest)) as [o t].
    destruct (recursive_dns_lookup _ _ _ _ _) as [o' t'].
    simpl in IH. inversion IH; subst. reflexivity.
Qed.

(** ** C5 *)

(** C5 (as the code has it): only [dns.exception.Timeout] makes the loop
    skip to the next address; any other exception of the transport or
    codec call (a malformed response: [FormError], [BadResponse]) is
    raised out of the resolver at once, and the remaining addresses are
    not tried. *)
Theorem only_timeout_is_skipped (rec : string -> Z -> list string -> M (option Message))
    (dns_query : Query) (qtype : Z) (target_name server : string)
    (rest : list string) (e : Exn) :
  udp dns_query server = inl e ->
  server_loop udp rec dns_query qtype target_name (server :: rest) =
  match e with
  | Timeout =>
      let (o, t) := server_loop udp rec dns_query qtype target_name rest in
      (o, EvSend server dns_query :: t)
  | _ => (Raise e, [EvSend server dns_query])
  end.
Proof.
  intros H. simpl. rewrite H.
  destruct e; simpl; try reflexivity.
Qed.

End ResolverProps.

Section NotFoundProps.

Variable udp : Query -> string -> Exn + Message.

Lemma server_loop_not_found (fuel : nat) (q : Query) (qtype : Z) (tn : string)
    (servers : list string) (tr : list Event) :
  server_loop udp (recursive_dns_lookup udp fuel) q qtype tn servers = (Ok None, tr) ->
  (exists tn', skips udp q qtype tn servers tn' /\ tr = sends q servers) \/
  (exists pre s post tn' tr', servers = pre ++ s :: post /\ skips udp q qtype tn pre tn' /\
     escapes udp fuel q qtype tn' s tr' /\ tr = sends q (pre ++ [s]) ++ tr').
Proof.
  revert tn tr. induction servers as [|s rest IH]; intros tn tr H.
  - simpl in H. inversion H; subst. left. exists tn. split; [constructor|reflexivity].
  - simpl in H. destruct (udp q s) as [e|m] eqn:Eu.
    + destruct e; try discriminate H. simpl in H.
      destruct (server_loop _ _ _ _ _ rest) as [o t] eqn:Er. inversion H; subst.
      destruct (IH _ _ Er) as [[tn' [Hs ->]]|(pre & s' & post & tn' & tr' & -> & Hs & He & ->)].
      * left. exists tn'. split; [eapply skips_timeout; eauto|reflexivity].
      * right. exists (s :: pre), s', post, tn', tr'.
        repeat split; auto. eapply skips_timeout; eauto.
    + simpl in H. destruct (answer m) as [|rr rrs] eqn:Ea.
      * destruct (additional m) as [|ad ads] eqn:Ed.
        -- destruct (server_loop _ _ _ _ _ rest) as [o t] eqn:Er. inversion H; subst.
           destruct (IH _ _ Er) as [[tn' [Hs ->]]|(pre & s' & post & tn' & tr' & -> & Hs & He & ->)].
           ++ left. exists tn'. split; [eapply skips_silent; eauto|reflexivity].
           ++ right. exists (s :: pre), s', post, tn', tr'.
              repeat split; auto. eapply skips_silent; eauto.
        -- rewrite <- Ed in H.
           destruct (recursive_dns_lookup _ _ _ _ _) as [o t] eqn:Er. inversion H; subst.
           right. exists [], s, rest, tn, t. repeat split; auto; [constructor|].
           exists m. split; auto. right. repeat split; auto; congruence.
      * rewrite <- Ea in H.
        destruct (scan_answer qtype tn (answer m)) as [|t|tn1] eqn:Es.
        -- discriminate H.
        -- destruct (recursive_dns_lookup _ _ _ _ _) as [o t'] eqn:Er. inversion H; subst.
           rewrite scan_answer_flat in Es.
           destruct (scan_rdatas_cname_inv _ _ _ _ Es) as (pre & r & post & Hrs & Hpre & Hr & Hq & ->).
           right. exists [], s, rest, tn, t'. repeat split; auto; [constructor|].
           exists m. split; auto. left. split; [congruence|].
           exists pre, r, post. repeat split; auto.
        -- destruct (server_loop _ _ _ _ _ rest) as [o t] eqn:Er. inversion H; subst.
           rewrite scan_answer_flat in Es.
           destruct (scan_rdatas_none_inv _ _ _ _ Es) as [Hall ->].
           assert (Hne : answer m <> []) by congruence.
           destruct (IH _ _ Er) as [[tn' [Hs ->]]|(pre & s' & post & tn' & tr' & -> & Hs & He & ->)].
           ++ left. exists tn'. split; [eapply skips_unusable; eauto|reflexivity].
           ++ right. exists (s :: pre), s', post, tn', tr'.
              repeat split; auto. eapply skips_unusable; eauto.
Qed.

(** ** C1 *)

(** C1 (as the code has it): when [recursive_dns_lookup] returns NotFound
    for a non-empty server list, either every address was sent the query,
    in order, and none gave a usable next step; or the addresses of a
    prefix gave no usable next step and the next one sent a CNAME or a
    referral (possibly with no extractable glue) whose nested resolution
    returned NotFound, which is returned at once: the addresses after it
    are not tried. *)
Theorem not_found_tried_in_order_or_nested (fuel : nat) (name : string) (qtype : Z)
    (servers : list string) (tr : list Event) :
  servers <> [] ->
  recursive_dns_lookup udp (S fuel) name qtype servers = (Ok None, tr) ->
  let q := mkQuery name qtype in
  (exists tn', skips udp q qtype name servers tn' /\ tr = EvQuery q :: sends q servers) \/
  (exists pre s post tn' tr', servers = pre ++ s :: post /\ skips udp q qtype name pre tn' /\
     escapes udp fuel q qtype tn' s tr' /\ tr = EvQuery q :: sends q (pre ++ [s]) ++ tr').
Proof.
  intros Hne H q. destruct servers as [|s0 rest]; [congruence|].
  assert (E : recursive_dns_lookup udp (S fuel) name qtype (s0 :: rest) =
              bind (tell [EvQuery q]) (fun _ =>
                server_loop udp (recursive_dns_lookup udp fuel) q qtype name (s0 :: rest)))
    by reflexivity.
  rewrite E in H. unfold bind, tell in H.
  destruct (server_loop _ _ _ _ _ (s0 :: rest)) as [o t] eqn:Er. inversion H; subst.
  destruct (server_loop_not_found _ _ _ _ _ _ Er)
    as [[tn' [Hs ->]]|(pre & s & post & tn' & tr' & Heq & Hs & He & ->)].
  - left. eauto.
  - right. exists pre, s, post, tn', tr'. rewrite Heq. auto.
Qed.

End NotFoundProps.

(** ** C2 *)

(** C2 (at a concrete input): the CNAME list of [collect_results] takes
    every answer record, with no type test (unlike the A, AAAA and MX
    lists): a response to the CNAME query whose answer holds an A RRset
    and a CNAME RRset yields a CNAME entry for the A record. *)
Theorem collect_cnames_keeps_other_types :
  match fst (collect_results net_mixed_answer from_text_abs 3 "www.example.com") with
  | Ok d => d !! "CNAME" = Some [ECname (rd 1 "93.184.216.34") "www.example.com";
                                 ECname (rd 5 "example.com.") "www.example.com"]
  | _ => False
  end.
Proof. vm_compute. reflexivity. Qed.

(** ** C4 *)

(** C4 (at a concrete input): 10.0.0.1 answers the A query for
    example.com. with an MX record only, 10.0.0.2 then sends a referral;
    the referral is followed with the name ["10 mail.example.com"] (the
    MX record's text) instead of ["example.com."], and the resolution
    ends NotFound although the referred server knows example.com. *)
Theorem referral_after_mx_answer_renames_query :
  recursive_dns_lookup net_mx_then_referral 3 "example.com." rdatatype_A
    ["10.0.0.1"; "10.0.0.2"] =
  (Ok None,
   [EvQuery (mkQuery "example.com." 1);
    EvSend "10.0.0.1" (mkQuery "example.com." 1);
    EvSend "10.0.0.2" (mkQuery "example.com." 1);
    EvQuery (mkQuery "10 mail.example.com" 1);
    EvSend "192.0.2.53" (mkQuery "10 mail.example.com" 1)]).
Proof. vm_compute. reflexivity. Qed.

(** ** C8 *)

(** C8: whenever [collect_results] returns, its dictionary has exactly
    the keys CNAME, A, AAAA and MX, each bound to a list, and a type
    whose lookup returned NotFound is bound to the empty list. *)
Theorem collect_results_four_keys (udp : Query -> string -> Exn + Message)
    (name_from_text : string -> Exn + string) (fuel : nat) (name : string)
    (d : Dict) (tr : list Event) :
  collect_results udp name_from_text fuel name = (Ok d, tr) ->
  dom d = list_to_set (map snd type_tags) /\
  forall T key, In (T, key) type_tags ->
    exists l, d !! key = Some l /\
      forall tn, name_from_text name = inr tn ->
        fst (lookup udp fuel tn T) = Ok None -> l = [].
Proof.
  unfold collect_results. intros H.
  destruct (name_from_text name) as [e|tn] eqn:Ent; [discriminate|].
  destruct (lookup udp fuel tn rdatatype_CNAME) as [[r1| |] t1] eqn:E1;
    simpl in H; try discriminate.
  destruct (lookup udp fuel tn rdatatype_A) as [[r2| |] t2] eqn:E2;
    simpl in H; try discriminate.
  destruct (lookup udp fuel tn rdatatype_AAAA) as [[r3| |] t3] eqn:E3;
    simpl in H; try discriminate.
  destruct (lookup udp fuel tn rdatatype_MX) as [[r4| |] t4] eqn:E4;
    simpl in H; try discriminate.
  inversion H; subst d. split.
  - rewrite !dom_insert_L, dom_empty_L. simpl. set_solver.
  - intros T key Hin. simpl in Hin.
    destruct Hin as [Hk|[Hk|[Hk|[Hk|[]]]]]; inversion Hk; subst T key;
      eexists; (split; [simplify_map_eq; reflexivity|]);
      intros tn' Htn' HN; inversion Htn'; subst tn';
      [rewrite E1 in HN | rewrite E2 in HN | rewrite E3 in HN | rewrite E4 in HN];
      simpl in HN; inversion HN; reflexivity.
Qed.

(** ** C6 *)

(** C6, against [collect_results] itself: it reads no cache, so a second
    call for the same string repeats the whole run, datagrams included
    (same result on a static hierarchy). *)
Theorem collect_results_requeries :
  let (o1, t1) := collect_results net_example from_text_abs 5 "example.com" in
  let (o2, t2) := collect_results net_example from_text_abs 5 "example.com" in
  o1 = o2 /\ t1 = t2 /\ In (EvSend "198.41.0.4" (mkQuery "example.com." 5)) t2.
Proof. vm_compute. split; [reflexivity|]. split; [reflexivity|]. right. left. reflexivity. Qed.

(** C6 (as the code has it): the cache lives in [main]. Once a name has
    been processed, processing it again prints the stored dictionary,
    the one printed the first time, sends no datagram and leaves
    [CACHE_SYSTEM] as it is; the first processing only writes the entry
    of that name. *)
Theorem main_step_served_from_cache (udp : Query -> string -> Exn + Message)
    (name_from_text : string -> Exn + string) (fuel : nat)
    (CACHE_SYSTEM CACHE_SYSTEM' : gmap string Dict) (a_domain_name : string)
    (t1 : list Event) :
  main_step udp name_from_text fuel CACHE_SYSTEM a_domain_name = (Ok CACHE_SYSTEM', t1) ->
  exists d, CACHE_SYSTEM' !! a_domain_name = Some d /\
    last t1 = Some (EvPrint d) /\
    main_step udp name_from_text fuel CACHE_SYSTEM' a_domain_name
      = (Ok CACHE_SYSTEM', [EvPrint d]) /\
    (forall k, k <> a_domain_name -> CACHE_SYSTEM' !! k = CACHE_SYSTEM !! k).
Proof.
  unfold main_step. intros H.
  destruct (CACHE_SYSTEM !! a_domain_name) as [d|] eqn:Ec.
  - simpl in H. inversion H; subst. exists d. rewrite Ec. auto.
  - destruct (collect_results udp name_from_text fuel a_domain_name) as [[d| |] t] eqn:Ecol;
      simpl in H; try discriminate.
    inversion H; subst. exists d.
    rewrite lookup_insert_eq. split; [reflexivity|]. split; [apply last_snoc|].
    split; [reflexivity|].
    intros k Hk. rewrite lookup_insert_ne by congruence. reflexivity.
Qed.

(** ** Tokenizing the text of an RRset *)

Lemma cons_word_app (w : string) (ts l : list string) :
  cons_word w (ts ++ l) = cons_word w ts ++ l.
Proof. destruct w; reflexivity. Qed.

Lemma split_go_app (a x : string) (l : list string) :
  split_go x = (EmptyString, l) ->
  split_go (a ++ x)%string = (fst (split_go a), snd (split_go a) ++ l).
Proof.
  intros Hx. induction a as [|c a IH]; [exact Hx|].
  simpl. rewrite IH. destruct (split_go a) as [w ts]. simpl.
  destruct (is_ws c); simpl; [rewrite cons_word_app|]; reflexivity.
Qed.

Lemma py_split_ws (a b : string) (c : ascii) :
  is_ws c = true -> py_split (a ++ String c b)%string = py_split a ++ py_split b.
Proof.
  intros Hc. unfold py_split.
  rewrite (split_go_app a (String c b) (py_split b)).
  - destruct (split_go a) as [w ts]. simpl. apply cons_word_app.
  - simpl. unfold py_split. destruct (split_go b) as [w ts]. rewrite Hc. reflexivity.
Qed.

Lemma py_split_space (a b : string) :
  py_split (a ++ " " ++ b)%string = py_split a ++ py_split b.
Proof. apply py_split_ws. reflexivity. Qed.

Lemma split_go_token (t : string) : no_ws t = true -> split_go t = (t, []).
Proof.
  induction t as [|c t IH]; [reflexivity|].
  simpl. intros H. apply andb_prop in H as [Hc Ht].
  rewrite IH by exact Ht. apply negb_true_iff in Hc. rewrite Hc. reflexivity.
Qed.

Lemma py_split_token (t : string) : is_token t -> py_split t = [t].
Proof.
  intros [Hne Hws]. unfold py_split. rewrite split_go_token by exact Hws.
  destruct t; [congruence|reflexivity].
Qed.

Lemma py_split_concat_nl (ls : list string) :
  py_split (String.concat (String "010" EmptyString) ls) = flat_map py_split ls.
Proof.
  induction ls as [|x ls IH]; [reflexivity|].
  destruct ls as [|y ls'].
  - simpl. rewrite app_nil_r. reflexivity.
  - change (String.concat (String "010" EmptyString) (x :: y :: ls'))
      with (x ++ String "010" (String.concat (String "010" EmptyString) (y :: ls')))%string.
    rewrite py_split_ws by reflexivity. rewrite IH. reflexivity.
Qed.

Lemma dec_digits_token (fuel : nat) (n : N) (acc : string) :
  no_ws acc = true -> no_ws (dec_digits fuel n acc) = true /\
    (fuel <> O -> dec_digits fuel n acc <> "A"%string /\
                  dec_digits fuel n acc <> EmptyString).
Proof.
  revert n acc. induction fuel as [|f IH]; intros n acc Hacc; [split; [exact Hacc|congruence]|].
  assert (Hd : exists k, (k < 10)%N /\ (48 + n mod 10)%N = (48 + k)%N)
    by (exists (n mod 10)%N; split; [apply N.mod_lt; discriminate|reflexivity]).
  destruct Hd as [k [Hk Hkeq]].
  assert (Hacc' : no_ws (String (ascii_of_N (48 + n mod 10)) acc) = true /\
                  String (ascii_of_N (48 + n mod 10)) acc <> "A"%string).
  { rewrite Hkeq.
    assert (k = 0 \/ k = 1 \/ k = 2 \/ k = 3 \/ k = 4 \/ k = 5 \/ k = 6 \/ k = 7 \/
            k = 8 \/ k = 9)%N as Hcases by lia.
    destruct Hcases as [->|[->|[->|[->|[->|[->|[->|[->|[->| ->]]]]]]]]];
      (split; [simpl; exact Hacc| intros E; inversion E]). }
  destruct Hacc' as [Hws Hne].
  simpl. destruct (n <? 10)%N.
  - split; [exact Hws|]. intros _. split; [exact Hne|discriminate].
  - destruct f as [|f'].
    + simpl. split; [exact Hws|]. intros _. split; [exact Hne|discriminate].
    + destruct (IH (n / 10)%N _ Hws) as [H1 H2]. split; [exact H1|]. intros _. apply H2. discriminate.
Qed.

Lemma N_to_dec_token (n : N) : is_token (N_to_dec n) /\ N_to_dec n <> "A"%string.
Proof.
  unfold N_to_dec. destruct (dec_digits_token (S (N.size_nat n)) n EmptyString eq_refl)
    as [H1 H2].
  destruct (H2 ltac:(discriminate)) as [H3 H4]. repeat split; assumption.
Qed.

Lemma flat_map_marks (L : string) (toks : list string) :
  flat_map (fun t => if String.eqb t "A" then [L] else []) toks =
  repeat L (count_occ string_dec toks "A").
Proof.
  induction toks as [|t toks IH]; [reflexivity|].
  simpl. destruct (String.eqb_spec t "A"), (string_dec t "A"); try congruence;
    simpl; rewrite IH; reflexivity.
Qed.

Lemma rrset_line_tokens (rr : RRset) (x : Rdata) :
  is_token (rrs_name rr) -> is_token (rdatatype_to_text (rrs_rdtype rr)) ->
  is_token (rd_text x) ->
  py_split (rrset_line rr x) =
  [rrs_name rr; N_to_dec (rrs_ttl rr); "IN"; rdatatype_to_text (rrs_rdtype rr); rd_text x].
Proof.
  intros Hn Ht Hx. unfold rrset_line.
  change (py_split (rrs_name rr ++ " " ++ N_to_dec (rrs_ttl rr) ++ " " ++ "IN" ++ " "
            ++ rdatatype_to_text (rrs_rdtype rr) ++ " " ++ rd_text x)%string =
          [rrs_name rr; N_to_dec (rrs_ttl rr); "IN"; rdatatype_to_text (rrs_rdtype rr);
           rd_text x]).
  rewrite !py_split_space.
  rewrite (py_split_token (rrs_name rr)), (py_split_token (N_to_dec (rrs_ttl rr))),
    (py_split_token "IN"), (py_split_token (rdatatype_to_text (rrs_rdtype rr))),
    (py_split_token (rd_text x)) by first [apply (proj1 (N_to_dec_token _)) | assumption
            | split; [discriminate|reflexivity]].
  reflexivity.
Qed.

Lemma rrset_tokens (rr : RRset) :
  rrs_items rr <> [] -> is_token (rrs_name rr) ->
  is_token (rdatatype_to_text (rrs_rdtype rr)) ->
  Forall (fun x => is_token (rd_text x)) (rrs_items rr) ->
  py_split (rrset_to_text rr) = flat_map (line_tokens rr) (rrs_items rr).
Proof.
  intros Hne Hn Ht Hall. unfold rrset_to_text.
  destruct (rrs_items rr) as [|x xs]; [congruence|].
  rewrite py_split_concat_nl. clear Hne.
  induction Hall as [|y ys Hy Hys IH]; [reflexivity|].
  simpl. rewrite rrset_line_tokens by assumption. simpl. rewrite IH. reflexivity.
Qed.

Lemma count_line_tokens (rr : RRset) (l : list Rdata) :
  rrs_name rr <> "A" -> Forall (fun x => rd_text x <> "A") l ->
  count_occ string_dec (flat_map (line_tokens rr) l) "A" =
  (length l * count_occ string_dec [rdatatype_to_text (rrs_rdtype rr)] "A")%nat.
Proof.
  intros Hn Hall. induction Hall as [|x l Hx Hl IH]; [reflexivity|].
  change (flat_map (line_tokens rr) (x :: l))
    with (line_tokens rr x ++ flat_map (line_tokens rr) l).
  rewrite count_occ_app, IH. unfold line_tokens.
  rewrite (count_occ_cons_neq string_dec) by exact Hn.
  rewrite (count_occ_cons_neq string_dec) by apply (proj2 (N_to_dec_token _)).
  rewrite (count_occ_cons_neq string_dec) by discriminate.
  change [rdatatype_to_text (rrs_rdtype rr); rd_text x]
    with ([rdatatype_to_text (rrs_rdtype rr)] ++ [rd_text x]).
  rewrite count_occ_app.
  assert (E : count_occ string_dec [rd_text x] "A" = O)
    by (simpl; destruct (string_dec (rd_text x) "A"); congruence).
  rewrite E. simpl. lia.
Qed.

Lemma last_line_tokens (rr : RRset) (l : list Rdata) (d : Rdata) :
  l <> [] -> List.last (flat_map (line_tokens rr) l) "" = rd_text (List.last l d).
Proof.
  intros Hne. destruct (exists_last Hne) as [pre [x ->]].
  rewrite flat_map_app, last_last.
  change (flat_map (line_tokens rr) [x]) with (line_tokens rr x ++ []).
  rewrite app_nil_r. unfold line_tokens.
  change [rrs_name rr; N_to_dec (rrs_ttl rr); "IN"; rdatatype_to_text (rrs_rdtype rr); rd_text x]
    with ([rrs_name rr; N_to_dec (rrs_ttl rr); "IN"; rdatatype_to_text (rrs_rdtype rr)]
          ++ [rd_text x]).
  rewrite app_assoc. apply last_last.
Qed.

(** ** C10 *)

(** C10: glue extraction appends, for every token ["A"] of [str(rrset)],
    the last token of that whole text.  Hence an A RRset of [n] records
    (owner name and addresses printed as single tokens other than ["A"])
    yields its last address [n] times, and an AAAA RRset yields
    nothing. *)
Theorem glue_extraction_by_tokens :
  (forall rr : RRset,
     glue_of_rrset rr =
     repeat (List.last (py_split (rrset_to_text rr)) "")
            (count_occ string_dec (py_split (rrset_to_text rr)) "A")) /\
  (forall (rr : RRset) (d : Rdata),
     rrs_rdtype rr = rdatatype_A -> rrs_items rr <> [] ->
     is_token (rrs_name rr) -> rrs_name rr <> "A" ->
     Forall (fun x => is_token (rd_text x) /\ rd_text x <> "A") (rrs_items rr) ->
     glue_of_rrset rr = repeat (rd_text (List.last (rrs_items rr) d)) (length (rrs_items rr))) /\
  (forall rr : RRset,
     rrs_rdtype rr = rdatatype_AAAA ->
     is_token (rrs_name rr) -> rrs_name rr <> "A" ->
     Forall (fun x => is_token (rd_text x) /\ rd_text x <> "A") (rrs_items rr) ->
     glue_of_rrset rr = []).
Proof.
  assert (Hgen : forall rr : RRset,
     glue_of_rrset rr =
     repeat (List.last (py_split (rrset_to_text rr)) "")
            (count_occ string_dec (py_split (rrset_to_text rr)) "A"))
    by (intros rr; apply flat_map_marks).
  split; [exact Hgen|]. split.
  - intros rr d Ht Hne Hn HnA Hall. rewrite Hgen.
    assert (Htt : is_token (rdatatype_to_text (rrs_rdtype rr)))
      by (rewrite Ht; split; [discriminate|reflexivity]).
    assert (Hall1 : Forall (fun x => is_token (rd_text x)) (rrs_items rr))
      by (eapply Forall_impl; [exact Hall|intros ? [? ?]; assumption]).
    assert (Hall2 : Forall (fun x => rd_text x <> "A") (rrs_items rr))
      by (eapply Forall_impl; [exact Hall|intros ? [? ?]; assumption]).
    rewrite rrset_tokens by assumption.
    rewrite (last_line_tokens rr _ d Hne).
    rewrite count_line_tokens by assumption.
    rewrite Ht. simpl. f_equal. lia.
  - intros rr Ht Hn HnA Hall. rewrite Hgen.
    destruct (rrs_items rr) as [|x xs] eqn:Ei.
    + unfold rrset_to_text. rewrite Ei, Ht.
      change (" IN " ++ rdatatype_to_text rdatatype_AAAA)%string
        with (" " ++ "IN" ++ " " ++ "AAAA")%string.
      rewrite !py_split_space, (py_split_token (rrs_name rr)) by exact Hn.
      simpl. destruct (string_dec (rrs_name rr) "A"); [contradiction|reflexivity].
    + assert (Htt : is_token (rdatatype_to_text (rrs_rdtype rr)))
        by (rewrite Ht; split; [discriminate|reflexivity]).
      rewrite <- Ei in Hall.
      assert (Hall1 : Forall (fun x => is_token (rd_text x)) (rrs_items rr))
        by (eapply Forall_impl; [exact Hall|intros ? [? ?]; assumption]).
      assert (Hall2 : Forall (fun x => rd_text x <> "A") (rrs_items rr))
        by (eapply Forall_impl; [exact Hall|intros ? [? ?]; assumption]).
      rewrite rrset_tokens by (first [assumption | congruence]).
      rewrite count_line_tokens by assumption.
      rewrite Ht. simpl. rewrite Nat.mul_0_r. reflexivity.
Qed.

(** * Counterexamples *)

(** C1, as stated, fails: 10.0.0.1 sends a referral whose additional
    section holds only an AAAA RRset, so no glue is extracted; the nested
    call on the empty list returns NotFound, and that is returned before
    192.0.2.53 (which answers example.com. A on its own) is tried. *)
Lemma not_found_with_untried_address :
  recursive_dns_lookup net_empty_glue 3 "example.com." rdatatype_A
    ["10.0.0.1"; "192.0.2.53"] =
  (Ok None, [EvQuery (mkQuery "example.com." 1);
             EvSend "10.0.0.1" (mkQuery "example.com." 1)]) /\
  match fst (recursive_dns_lookup net_empty_glue 3 "example.com." rdatatype_A
               ["192.0.2.53"]) with
  | Ok (Some _) => True
  | _ => False
  end.
Proof. vm_compute. split; [reflexivity|exact I]. Qed.

(** C5, as stated, fails: 10.0.0.1 sends a message the codec rejects
    ([FormError]); the exception leaves the resolver, and 192.0.2.53,
    which would answer, is never asked. *)
Lemma malformed_reply_is_raised :
  recursive_dns_lookup net_malformed 3 "example.com." rdatatype_A
    ["10.0.0.1"; "192.0.2.53"] =
  (Raise FormError, [EvQuery (mkQuery "example.com." 1);
                     EvSend "10.0.0.1" (mkQuery "example.com." 1)]) /\
  match fst (recursive_dns_lookup net_malformed 3 "example.com." rdatatype_A
               ["192.0.2.53"]) with
  | Ok (Some _) => True
  | _ => False
  end.
Proof. vm_compute. split; [reflexivity|exact I]. Qed.

(** * Witnesses: the theorems applied at concrete inputs *)

Lemma cname_restarts_from_root_witness :
  server_loop net_alias (recursive_dns_lookup net_alias 2)
    (mkQuery "www.example.com." 28) 28 "www.example.com." ("198.41.0.4" :: []) =
  let (o, t) := recursive_dns_lookup net_alias 2 (py_drop_last (rd_text (rd 5 "example.com.")))
                  28 ROOT_SERVERS in
  (o, EvSend "198.41.0.4" (mkQuery "www.example.com." 28) :: t).
Proof.
  apply (cname_restarts_from_root net_alias 2 (mkQuery "www.example.com." 28) 28
           "www.example.com." "198.41.0.4" [] www_answer [rd 1 "93.184.216.34"]
           (rd 5 "example.com.") []).
  - discriminate.
  - reflexivity.
  - reflexivity.
  - constructor; [split; discriminate|constructor].
  - reflexivity.
Defined.

Lemma referral_after_unusable_answer_uses_clobbered_name_witness :
  server_loop net_mx_then_referral (recursive_dns_lookup net_mx_then_referral 3)
    (mkQuery "example.com." 1) 1 "example.com." ("10.0.0.1" :: [] ++ "10.0.0.2" :: []) =
  let (o, t) := recursive_dns_lookup net_mx_then_referral 3
                  (py_drop_last (rd_text (List.last [mx_rd] mx_rd))) 1
                  (extract_glue [glue_tld]) in
  (o, EvSend "10.0.0.1" (mkQuery "example.com." 1) :: sends (mkQuery "example.com." 1) []
        ++ EvSend "10.0.0.2" (mkQuery "example.com." 1) :: t).
Proof.
  apply (referral_after_unusable_answer_uses_clobbered_name net_mx_then_referral 3
           (mkQuery "example.com." 1) 1 "example.com." "10.0.0.1" "10.0.0.2" [] []
           (mkMessage [rrset1 "example.com." 15 [mx_rd]] [] [])
           (mkMessage [] [] [glue_tld]) mx_rd).
  - reflexivity.
  - discriminate.
  - constructor; [split; discriminate|constructor].
  - constructor.
  - reflexivity.
  - reflexivity.
  - discriminate.
Defined.

Lemma only_timeout_is_skipped_witness :
  server_loop net_malformed (recursive_dns_lookup net_malformed 3)
    (mkQuery "example.com." 1) 1 "example.com." ["10.0.0.1"; "192.0.2.53"] =
  (Raise FormError, [EvSend "10.0.0.1" (mkQuery "example.com." 1)]).
Proof.
  exact (only_timeout_is_skipped net_malformed (recursive_dns_lookup net_malformed 3)
           (mkQuery "example.com." 1) 1 "example.com." "10.0.0.1" ["192.0.2.53"]
           FormError eq_refl).
Defined.

Lemma not_found_tried_in_order_or_nested_witness :
  let q := mkQuery "example.com." 1 in
  (exists tn', skips net_empty_glue q 1 "example.com." ["10.0.0.1"; "192.0.2.53"] tn' /\
     [EvQuery q; EvSend "10.0.0.1" q] = EvQuery q :: sends q ["10.0.0.1"; "192.0.2.53"]) \/
  (exists pre s post tn' tr', ["10.0.0.1"; "192.0.2.53"] = pre ++ s :: post /\
     skips net_empty_glue q 1 "example.com." pre tn' /\
     escapes net_empty_glue 2 q 1 tn' s tr' /\
     [EvQuery q; EvSend "10.0.0.1" q] = EvQuery q :: sends q (pre ++ [s]) ++ tr').
Proof.
  apply (not_found_tried_in_order_or_nested net_empty_glue 2 "example.com." 1
           ["10.0.0.1"; "192.0.2.53"]).
  - discriminate.
  - vm_compute. reflexivity.
Defined.

Lemma collect_results_four_keys_witness :
  match collect_results net_example from_text_abs 5 "example.com" with
  | (Ok d, _) =>
      dom d = list_to_set (map snd type_tags) /\
      forall T key, In (T, key) type_tags ->
        exists l, d !! key = Some l /\
          forall tn, from_text_abs "example.com" = inr tn ->
            fst (lookup net_example 5 tn T) = Ok None -> l = []
  | _ => False
  end.
Proof.
  destruct (collect_results net_example from_text_abs 5 "example.com") as [[d| |] tr] eqn:E.
  - exact (collect_results_four_keys net_example from_text_abs 5 "example.com" d tr E).
  - vm_compute in E. discriminate E.
  - vm_compute in E. discriminate E.
Defined.

Lemma main_step_served_from_cache_witness :
  match main_step net_example from_text_abs 5 ∅ "example.com" with
  | (Ok c1, t1) =>
      exists d, c1 !! "example.com" = Some d /\ last t1 = Some (EvPrint d) /\
        main_step net_example from_text_abs 5 c1 "example.com" = (Ok c1, [EvPrint d]) /\
        (forall k, k <> "example.com" -> c1 !! k = (∅ : gmap string Dict) !! k)
  | _ => False
  end.
Proof.
  destruct (main_step net_example from_text_abs 5 ∅ "example.com") as [[c1| |] t1] eqn:E.
  - exact (main_step_served_from_cache net_example from_text_abs 5 ∅ c1 "example.com" t1 E).
  - vm_compute in E. discriminate E.
  - vm_compute in E. discriminate E.
Defined.

Lemma glue_extraction_by_tokens_witness :
  glue_of_rrset glue_tld = repeat "192.0.2.53" 1 /\ glue_of_rrset aaaa_only = [].
Proof.
  destruct glue_extraction_by_tokens as (_ & HA & HAAAA). split.
  - apply (HA glue_tld (rd 1 "192.0.2.53")).
    + reflexivity.
    + discriminate.
    + split; [discriminate|reflexivity].
    + discriminate.
    + constructor; [split; [split; [discriminate|reflexivity]|discriminate]|constructor].
  - apply HAAAA.
    + reflexivity.
    + split; [discriminate|reflexivity].
    + discriminate.
    + constructor; [split; [split; [discriminate|reflexivity]|discriminate]|constructor].
Defined.

(** * Further properties of the code *)

(** ** Helpers *)

Lemma scan_rdatas_match (qtype : Z) (tn : string) (pre : list Rdata) (x : Rdata)
    (post : list Rdata) :
  Forall (passed_over qtype) pre -> rdtype x = qtype ->
  scan_rdatas qtype tn (pre ++ x :: post) = ScanMatch.
Proof.
  intros Hpre Hx. rewrite scan_rdatas_app, scan_rdatas_passed by exact Hpre.
  simpl. rewrite Hx, Z.eqb_refl. reflexivity.
Qed.

Lemma scan_rdatas_match_inv (qtype : Z) (tn : string) (rs : list Rdata) :
  scan_rdatas qtype tn rs = ScanMatch ->
  exists pre x post, rs = pre ++ x :: post /\ Forall (passed_over qtype) pre /\
    rdtype x = qtype.
Proof.
  revert tn. induction rs as [|x rs IH]; intros tn H; [discriminate|].
  simpl in H. destruct (Z.eqb_spec (rdtype x) qtype) as [Ht|Ht]; simpl in H.
  - exists [], x, rs. auto.
  - destruct (Z.eqb_spec (rdtype x) 5) as [Hc|Hc]; [discriminate|].
    destruct (IH _ H) as (pre & y & post & -> & Hpre & Hy).
    exists (x :: pre), y, post. repeat split; auto. constructor; [split|]; auto.
Qed.

Lemma printed_app (t1 t2 : list Event) : printed (t1 ++ t2) = printed t1 ++ printed t2.
Proof. apply omap_app. Qed.

Lemma printed_nil_of_queries (qtype : Z) (tr : list Event) :
  Forall (query_of_type qtype) tr -> printed tr = [].
Proof.
  induction 1 as [|e tr He _ IH]; [reflexivity|].
  destruct e; simpl in He |- *; [exact IH|exact IH|contradiction].
Qed.

Section ExtraResolver.

Variable udp : Query -> string -> Exn + Message.

Lemma replied_cons (qtype : Z) (m : Message) (e : Event) (tr : list Event) :
  replied udp qtype m tr -> replied udp qtype m (e :: tr).
Proof.
  intros (q & s & pre & Hu & Hq & ->). exists q, s, (e :: pre). auto.
Qed.

Lemma server_loop_found (rec : string -> Z -> list string -> M (option Message))
    (q : Query) (qtype : Z) :
  q_type q = qtype ->
  (forall t l m tr, rec t qtype l = (Ok (Some m), tr) ->
     match_first qtype m /\ replied udp qtype m tr) ->
  forall tn servers m tr,
    server_loop udp rec q qtype tn servers = (Ok (Some m), tr) ->
    match_first qtype m /\ replied udp qtype m tr.
Proof.
  intros Hq Hrec tn servers. revert tn.
  induction servers as [|s rest IH]; intros tn m tr H.
  - simpl in H. cbv [ret] in H. discriminate H.
  - simpl in H. destruct (udp q s) as [e|r] eqn:Eu.
    + destruct e; try discriminate H. simpl in H.
      destruct (server_loop _ _ _ _ _ rest) as [o t] eqn:Er. inversion H; subst.
      destruct (IH _ _ _ Er) as [Hm Hr]. split; [exact Hm|apply replied_cons; exact Hr].
    + simpl in H. destruct (answer r) as [|rr rrs] eqn:Ea.
      * destruct (additional r) as [|ad ads] eqn:Ed.
        -- destruct (server_loop _ _ _ _ _ rest) as [o t] eqn:Er. inversion H; subst.
           destruct (IH _ _ _ Er) as [Hm Hr]. split; [exact Hm|apply replied_cons; exact Hr].
        -- rewrite <- Ed in H.
           destruct (rec _ _ _) as [o t] eqn:Er. inversion H; subst.
           destruct (Hrec _ _ _ _ Er) as [Hm Hr]. split; [exact Hm|apply replied_cons; exact Hr].
      * rewrite <- Ea in H.
        destruct (scan_answer qtype tn (answer r)) as [|t|tn1] eqn:Es.
        -- inversion H; subst. split.
           ++ rewrite scan_answer_flat in Es.
              destruct (scan_rdatas_match_inv _ _ _ Es) as (pre & x & post & Hrs & Hpre & Hx).
              exists pre, x, post. auto.
           ++ exists q, s, []. auto.
        -- destruct (rec _ _ _) as [o t'] eqn:Er. inversion H; subst.
           destruct (Hrec _ _ _ _ Er) as [Hm Hr]. split; [exact Hm|apply replied_cons; exact Hr].
        -- destruct (server_loop _ _ _ _ _ rest) as [o t] eqn:Er. inversion H; subst.
           destruct (IH _ _ _ Er) as [Hm Hr]. split; [exact Hm|apply replied_cons; exact Hr].
Qed.

Lemma server_loop_events (rec : string -> Z -> list string -> M (option Message))
    (q : Query) (qtype : Z) :
  q_type q = qtype ->
  (forall t l o tr, rec t qtype l = (o, tr) -> Forall (query_of_type qtype) tr) ->
  forall tn servers o tr,
    server_loop udp rec q qtype tn servers = (o, tr) -> Forall (query_of_type qtype) tr.
Proof.
  intros Hq Hrec tn servers. revert tn.
  induction servers as [|s rest IH]; intros tn o tr H.
  - simpl in H. cbv [ret] in H. inversion H; subst o tr. constructor.
  - simpl in H. destruct (udp q s) as [e|r] eqn:Eu.
    + destruct e; simpl in H;
        try (inversion H; subst o tr; constructor; [exact Hq|constructor]).
      destruct (server_loop _ _ _ _ _ rest) as [o' t] eqn:Er. inversion H; subst o tr.
      constructor; [exact Hq|exact (IH _ _ _ Er)].
    + simpl in H. destruct (answer r) as [|rr rrs] eqn:Ea.
      * destruct (additional r) as [|ad ads] eqn:Ed.
        -- destruct (server_loop _ _ _ _ _ rest) as [o' t] eqn:Er. inversion H; subst o tr.
           constructor; [exact Hq|exact (IH _ _ _ Er)].
        -- rewrite <- Ed in H.
           destruct (rec _ _ _) as [o' t] eqn:Er. inversion H; subst o tr.
           constructor; [exact Hq|exact (Hrec _ _ _ _ Er)].
      * rewrite <- Ea in H.
        destruct (scan_answer qtype tn (answer r)) as [|t|tn1] eqn:Es.
        -- inversion H; subst o tr. constructor; [exact Hq|constructor].
        -- destruct (rec _ _ _) as [o' t'] eqn:Er. inversion H; subst o tr.
           constructor; [exact Hq|exact (Hrec _ _ _ _ Er)].
        -- destruct (server_loop _ _ _ _ _ rest) as [o' t] eqn:Er. inversion H; subst o tr.
           constructor; [exact Hq|exact (IH _ _ _ Er)].
Qed.

Lemma recursive_dns_lookup_events (fuel : nat) (tn : string) (qtype : Z)
    (servers : list string) (o : Outcome (option Message)) (tr : list Event) :
  recursive_dns_lookup udp fuel tn qtype servers = (o, tr) ->
  Forall (query_of_type qtype) tr.
Proof.
  revert tn servers o tr. induction fuel as [|f IH]; intros tn servers o tr H.
  - inversion H; subst. constructor.
  - destruct servers as [|s0 rest]; [cbv [ret] in H; simpl in H; inversion H; constructor|].
    assert (E : recursive_dns_lookup udp (S f) tn qtype (s0 :: rest) =
                bind (tell [EvQuery (mkQuery tn qtype)]) (fun _ =>
                  server_loop udp (recursive_dns_lookup udp f) (mkQuery tn qtype) qtype tn
                    (s0 :: rest))) by reflexivity.
    rewrite E in H. unfold bind, tell in H.
    destruct (server_loop _ _ _ _ _ (s0 :: rest)) as [o' t] eqn:Er. inversion H; subst.
    constructor; [reflexivity|].
    exact (server_loop_events (recursive_dns_lookup udp f) (mkQuery tn qtype) qtype eq_refl
             (fun t l o tr H => IH t l o tr H) tn _ _ _ Er).
Qed.

Lemma server_loop_timeouts (rec : string -> Z -> list string -> M (option Message))
    (q : Query) (qtype : Z) (tn : string) (servers : list string) :
  Forall (fun s => udp q s = inl Timeout) servers ->
  server_loop udp rec q qtype tn servers = (Ok None, sends q servers).
Proof.
  revert tn. induction servers as [|s rest IH]; intros tn H; [reflexivity|].
  inversion H as [|? ? Hs Hrest]; subst. simpl. rewrite Hs. simpl.
  rewrite (IH tn Hrest). reflexivity.
Qed.

Lemma server_loop_cname_step (rec : string -> Z -> list string -> M (option Message))
    (q : Query) (qtype : Z) (tn s : string) (rest : list string) (m : Message)
    (pre : list Rdata) (r : Rdata) (post : list Rdata) :
  qtype <> 5 -> udp q s = inr m -> answer_rdatas m = pre ++ r :: post ->
  Forall (passed_over qtype) pre -> rdtype r = 5 ->
  server_loop udp rec q qtype tn (s :: rest) =
  let (o, t) := rec (py_drop_last (rd_text r)) qtype ROOT_SERVERS in
  (o, EvSend s q :: t).
Proof.
  unfold answer_rdatas. intros Hq Hu Hans Hpre Hr.
  simpl. rewrite Hu. simpl.
  destruct (answer m) as [|rr rrs] eqn:Ea.
  - simpl in Hans. destruct pre; discriminate.
  - rewrite <- Ea, scan_answer_flat, Ea, Hans, scan_rdatas_cname by assumption.
    reflexivity.
Qed.

(** ** X1 *)

(** X1: whenever [recursive_dns_lookup] returns a message, the message
    is the reply of some address to a query for the requested type,
    that datagram is the last event of the run, and the reply's answer
    section, in scan order, meets a record of the requested type before
    any CNAME. *)
Theorem resolver_answer_is_matching_reply (fuel : nat) (tn : string) (qtype : Z)
    (servers : list string) (m : Message) (tr : list Event) :
  recursive_dns_lookup udp fuel tn qtype servers = (Ok (Some m), tr) ->
  match_first qtype m /\ replied udp qtype m tr.
Proof.
  revert tn servers m tr. induction fuel as [|f IH]; intros tn servers m tr H.
  - discriminate H.
  - destruct servers as [|s0 rest]; [cbv [ret] in H; simpl in H; discriminate H|].
    assert (E : recursive_dns_lookup udp (S f) tn qtype (s0 :: rest) =
                bind (tell [EvQuery (mkQuery tn qtype)]) (fun _ =>
                  server_loop udp (recursive_dns_lookup udp f) (mkQuery tn qtype) qtype tn
                    (s0 :: rest))) by reflexivity.
    rewrite E in H. unfold bind, tell in H.
    destruct (server_loop _ _ _ _ _ (s0 :: rest)) as [o t] eqn:Er. inversion H; subst.
    destruct (server_loop_found (recursive_dns_lookup udp f) (mkQuery tn qtype) qtype eq_refl
                (fun t l m tr H => IH t l m tr H) tn _ _ _ Er) as [Hm Hr].
    split; [exact Hm|apply replied_cons; exact Hr].
Qed.

(** ** X2 *)

(** X2: if the first address's reply meets a record of the requested
    type before any CNAME, [recursive_dns_lookup] returns that reply,
    whole, after one query and one datagram: the other addresses are
    not tried. *)
Theorem first_address_match_returned (fuel : nat) (tn : string) (qtype : Z)
    (s : string) (rest : list string) (m : Message) :
  udp (mkQuery tn qtype) s = inr m ->
  match_first qtype m ->
  recursive_dns_lookup udp (S fuel) tn qtype (s :: rest) =
  (Ok (Some m), [EvQuery (mkQuery tn qtype); EvSend s (mkQuery tn qtype)]).
Proof.
  intros Hu (pre & x & post & Hrs & Hpre & Hx).
  assert (E : recursive_dns_lookup udp (S fuel) tn qtype (s :: rest) =
              bind (tell [EvQuery (mkQuery tn qtype)]) (fun _ =>
                server_loop udp (recursive_dns_lookup udp fuel) (mkQuery tn qtype) qtype tn
                  (s :: rest))) by reflexivity.
  rewrite E. unfold bind, tell.
  assert (Hs : server_loop udp (recursive_dns_lookup udp fuel) (mkQuery tn qtype) qtype tn
                 (s :: rest) = (Ok (Some m), [EvSend s (mkQuery tn qtype)])).
  { unfold answer_rdatas in Hrs. simpl. rewrite Hu. simpl.
    destruct (answer m) as [|rr rrs] eqn:Ea.
    - simpl in Hrs. destruct pre; discriminate.
    - rewrite <- Ea, scan_answer_flat, Ea, Hrs, scan_rdatas_match by assumption.
      reflexivity. }
  rewrite Hs. reflexivity.
Qed.

(** ** X3 *)

(** X3: if every address of a non-empty list times out,
    [recursive_dns_lookup] returns NotFound after sending the query to
    each address once, in list order. *)
Theorem all_timeouts_not_found (fuel : nat) (tn : string) (qtype : Z)
    (servers : list string) :
  servers <> [] ->
  Forall (fun s => udp (mkQuery tn qtype) s = inl Timeout) servers ->
  recursive_dns_lookup udp (S fuel) tn qtype servers =
  (Ok None, EvQuery (mkQuery tn qtype) :: sends (mkQuery tn qtype) servers).
Proof.
  intros Hne Hall. destruct servers as [|s0 rest]; [congruence|].
  assert (E : recursive_dns_lookup udp (S fuel) tn qtype (s0 :: rest) =
              bind (tell [EvQuery (mkQuery tn qtype)]) (fun _ =>
                server_loop udp (recursive_dns_lookup udp fuel) (mkQuery tn qtype) qtype tn
                  (s0 :: rest))) by reflexivity.
  rewrite E. unfold bind, tell.
  rewrite (server_loop_timeouts _ _ qtype tn _ Hall). reflexivity.
Qed.

(** ** X4 *)

(** X4: if the first root server answers a name with a CNAME (before
    any record of the requested type) whose target, without its last
    character, is that same name, the resolution never ends: at every
    recursion bound it runs out, having repeated the same query to the
    same root server once per level (Python raises [RecursionError]). *)
Theorem cname_to_itself_never_resolves (fuel : nat) (tn : string) (qtype : Z)
    (m : Message) (pre : list Rdata) (r : Rdata) (post : list Rdata) :
  qtype <> 5 ->
  udp (mkQuery tn qtype) "198.41.0.4" = inr m ->
  answer_rdatas m = pre ++ r :: post ->
  Forall (passed_over qtype) pre ->
  rdtype r = 5 ->
  py_drop_last (rd_text r) = tn ->
  recursive_dns_lookup udp fuel tn qtype ROOT_SERVERS =
  (OutOfFuel, concat (repeat [EvQuery (mkQuery tn qtype);
                              EvSend "198.41.0.4" (mkQuery tn qtype)] fuel)).
Proof.
  intros Hq Hu Hans Hpre Hr Htn. induction fuel as [|f IH]; [reflexivity|].
  assert (E : recursive_dns_lookup udp (S f) tn qtype ROOT_SERVERS =
              bind (tell [EvQuery (mkQuery tn qtype)]) (fun _ =>
                server_loop udp (recursive_dns_lookup udp f) (mkQuery tn qtype) qtype tn
                  ("198.41.0.4" :: tl ROOT_SERVERS))) by reflexivity.
  rewrite E. unfold bind, tell.
  rewrite (server_loop_cname_step _ _ qtype tn _ _ m pre r post Hq Hu Hans Hpre Hr).
  rewrite Htn, IH. reflexivity.
Qed.

(** ** X5 *)

(** X5: every event of a resolution, whatever its outcome (an answer,
    NotFound, an exception or the recursion limit), is a query for the
    requested record type: CNAME restarts and referrals keep [qtype],
    and the resolver prints nothing. *)
Theorem resolver_keeps_record_type (fuel : nat) (tn : string) (qtype : Z)
    (servers : list string) (o : Outcome (option Message)) (tr : list Event) :
  recursive_dns_lookup udp fuel tn qtype servers = (o, tr) ->
  Forall (query_of_type qtype) tr.
Proof. apply recursive_dns_lookup_events. Qed.

End ExtraResolver.

Lemma print_entries_ok (rtype : string) (rs : list Entry) :
  Forall (fun e => is_Some (format_result rtype e)) rs ->
  print_entries rtype rs = (omap (format_result rtype) rs, true) /\
  length (omap (format_result rtype) rs) = length rs.
Proof.
  induction 1 as [|e rs [y Hy] _ [IH Hl]]; [split; reflexivity|].
  simpl. rewrite Hy, IH. split; [reflexivity|]. simpl. f_equal. exact Hl.
Qed.

Lemma print_formats_ok (fmts : list string) (results : Dict) :
  Forall (fun k => Forall (fun e => is_Some (format_result k e)) (default [] (results !! k)))
    fmts ->
  print_formats fmts results =
  (flat_map (fun k => omap (format_result k) (default [] (results !! k))) fmts, true).
Proof.
  induction 1 as [|k fmts Hk _ IH]; [reflexivity|].
  simpl. destruct (print_entries_ok k _ Hk) as [-> _]. rewrite IH. reflexivity.
Qed.

Lemma collect_cnames_format (name : string) (response : option Message) :
  Forall (fun e => is_Some (format_result "CNAME" e)) (collect_cnames name response).
Proof.
  destruct response as [r|]; [|constructor]. apply List.Forall_forall. intros e He.
  simpl in He. apply in_flat_map in He as (x & _ & Hx).
  apply in_map_iff in Hx as (y & <- & _). eexists. reflexivity.
Qed.

Lemma collect_addrs_format (code : Z) (rtype : string) (response : option Message) :
  rtype = "A" \/ rtype = "AAAA" ->
  Forall (fun e => is_Some (format_result rtype e)) (collect_addrs code response).
Proof.
  intros Hrt. destruct response as [r|]; [|constructor]. apply List.Forall_forall. intros e He.
  simpl in He. apply in_flat_map in He as (x & _ & Hx).
  apply in_flat_map in Hx as (y & _ & Hy).
  destruct (rdtype y =? code); [|destruct Hy]. destruct Hy as [<-|[]].
  destruct Hrt as [-> | ->]; eexists; reflexivity.
Qed.

Lemma collect_mx_format (response : option Message) :
  Forall (fun e => is_Some (format_result "MX" e)) (collect_mx response).
Proof.
  destruct response as [r|]; [|constructor]. apply List.Forall_forall. intros e He.
  simpl in He. apply in_flat_map in He as (x & _ & Hx).
  apply in_flat_map in Hx as (y & _ & Hy).
  destruct (rdtype y =? 15); [|destruct Hy]. destruct Hy as [<-|[]].
  eexists. reflexivity.
Qed.

Lemma collected_dict_lookup (c a aa mx : list Entry) :
  let D : Dict := <["MX" := mx]> (<["AAAA" := aa]> (<["A" := a]> (<["CNAME" := c]> ∅))) in
  D !! "CNAME" = Some c /\ D !! "A" = Some a /\ D !! "AAAA" = Some aa /\ D !! "MX" = Some mx.
Proof. simpl. repeat split; simplify_map_eq; reflexivity. Qed.

Lemma collect_results_no_print (udp : Query -> string -> Exn + Message)
    (name_from_text : string -> Exn + string) (fuel : nat) (name : string)
    (o : Outcome Dict) (tr : list Event) :
  collect_results udp name_from_text fuel name = (o, tr) -> printed tr = [].
Proof.
  assert (HP : forall tn T o' t, lookup udp fuel tn T = (o', t) -> printed t = [])
    by (intros tn T o' t E;
        exact (printed_nil_of_queries T t
                 (recursive_dns_lookup_events udp fuel tn T ROOT_SERVERS o' t E))).
  unfold collect_results. intros H.
  destruct (name_from_text name) as [e|tn]; [inversion H; reflexivity|].
  destruct (lookup udp fuel tn rdatatype_CNAME) as [[r1| |] t1] eqn:E1; simpl in H;
    [|inversion H; subst; exact (HP _ _ _ _ E1)..].
  destruct (lookup udp fuel tn rdatatype_A) as [[r2| |] t2] eqn:E2; simpl in H;
    [|inversion H; subst; rewrite printed_app, (HP _ _ _ _ E1), (HP _ _ _ _ E2);
      reflexivity..].
  destruct (lookup udp fuel tn rdatatype_AAAA) as [[r3| |] t3] eqn:E3; simpl in H;
    [|inversion H; subst; rewrite !printed_app, (HP _ _ _ _ E1), (HP _ _ _ _ E2),
        (HP _ _ _ _ E3); reflexivity..].
  destruct (lookup udp fuel tn rdatatype_MX) as [[r4| |] t4] eqn:E4; simpl in H;
    inversion H; subst; rewrite !printed_app, (HP _ _ _ _ E1), (HP _ _ _ _ E2),
      (HP _ _ _ _ E3), (HP _ _ _ _ E4); reflexivity.
Qed.

Lemma main_step_ok (udp : Query -> string -> Exn + Message)
    (name_from_text : string -> Exn + string) (fuel : nat)
    (C C1 : gmap string Dict) (n : string) (t1 : list Event) :
  main_step udp name_from_text fuel C n = (Ok C1, t1) ->
  exists d, C1 !! n = Some d /\ printed t1 = [d] /\
    (forall k, k <> n -> C1 !! k = C !! k) /\
    (forall d0, C !! n = Some d0 -> d0 = d).
Proof.
  unfold main_step. intros H.
  destruct (C !! n) as [d|] eqn:Ec.
  - simpl in H. inversion H; subst. exists d. split; [exact Ec|].
    split; [reflexivity|]. split; [reflexivity|]. intros d0 Hd0. congruence.
  - destruct (collect_results udp name_from_text fuel n) as [[d| |] t] eqn:Ecol;
      simpl in H; try discriminate.
    inversion H; subst. exists d. rewrite lookup_insert_eq. split; [reflexivity|].
    split; [rewrite printed_app, (collect_results_no_print _ _ _ _ _ _ Ecol); reflexivity|].
    split; [intros k Hk; rewrite lookup_insert_ne by congruence; reflexivity|].
    intros d0 Hd0. discriminate.
Qed.

(** ** X6 *)

(** X6: a dictionary returned by [collect_results] is printed without a
    [KeyError]: [print_results] prints, for CNAME, A, AAAA and MX in
    that order, every entry under that key with that key's format, one
    line per entry. *)
Theorem print_collected_results (udp : Query -> string -> Exn + Message)
    (name_from_text : string -> Exn + string) (fuel : nat) (name : string)
    (d : Dict) (tr : list Event) :
  collect_results udp name_from_text fuel name = (Ok d, tr) ->
  print_results d = (formatted_lines d, true) /\
  length (formatted_lines d) =
    (length (default [] (d !! "CNAME")) + length (default [] (d !! "A")) +
     length (default [] (d !! "AAAA")) + length (default [] (d !! "MX")))%nat.
Proof.
  unfold collect_results. intros H.
  destruct (name_from_text name) as [e|tn]; [discriminate|].
  destruct (lookup udp fuel tn rdatatype_CNAME) as [[r1| |] t1] eqn:E1;
    simpl in H; try discriminate.
  destruct (lookup udp fuel tn rdatatype_A) as [[r2| |] t2] eqn:E2;
    simpl in H; try discriminate.
  destruct (lookup udp fuel tn rdatatype_AAAA) as [[r3| |] t3] eqn:E3;
    simpl in H; try discriminate.
  destruct (lookup udp fuel tn rdatatype_MX) as [[r4| |] t4] eqn:E4;
    simpl in H; try discriminate.
  inversion H; subst d.
  destruct (collected_dict_lookup (collect_cnames name r1) (collect_addrs 1 r2)
              (collect_addrs 28 r3) (collect_mx r4)) as (HC & HA & HAA & HMX).
  pose proof (collect_cnames_format name r1) as FC.
  pose proof (collect_addrs_format 1 "A" r2 (or_introl eq_refl)) as FA.
  pose proof (collect_addrs_format 28 "AAAA" r3 (or_intror eq_refl)) as FAA.
  pose proof (collect_mx_format r4) as FMX.
  unfold print_results, formatted_lines, FORMATS. rewrite print_formats_ok.
  - split; [reflexivity|]. cbn [flat_map]. rewrite HC, HA, HAA, HMX. cbn [default id].
    rewrite !length_app.
    rewrite (proj2 (print_entries_ok _ _ FC)), (proj2 (print_entries_ok _ _ FA)),
      (proj2 (print_entries_ok _ _ FAA)), (proj2 (print_entries_ok _ _ FMX)).
    simpl. lia.
  - repeat apply List.Forall_cons; try apply List.Forall_nil; cbn beta.
    + rewrite HC. exact FC.
    + rewrite HA. exact FA.
    + rewrite HAA. exact FAA.
    + rewrite HMX. exact FMX.
Qed.

(** ** X7 *)

(** X7: when [main]'s loop over a list of names completes, it has
    printed exactly one dictionary per name, in order, each the final
    cache entry of that name; no cache entry present at the start is
    changed; and the cache holds exactly the names it held before plus
    the names processed. *)
Theorem main_loop_prints_cache (udp : Query -> string -> Exn + Message)
    (name_from_text : string -> Exn + string) (fuel : nat) (names : list string)
    (C C' : gmap string Dict) (tr : list Event) :
  main_loop udp name_from_text fuel names C = (Ok C', tr) ->
  Forall2 (fun n d => C' !! n = Some d) names (printed tr) /\
  (forall k d, C !! k = Some d -> C' !! k = Some d) /\
  (forall k, is_Some (C' !! k) <-> is_Some (C !! k) \/ In k names).
Proof.
  revert C tr. induction names as [|n rest IH]; intros C tr H.
  - simpl in H. cbv [ret] in H. inversion H; subst.
    split; [constructor|]. split; [auto|]. intros k. split; [auto|]. intros [Hk|[]]; exact Hk.
  - assert (E : main_loop udp name_from_text fuel (n :: rest) C =
                bind (main_step udp name_from_text fuel C n)
                  (fun c => main_loop udp name_from_text fuel rest c)) by reflexivity.
    rewrite E in H. unfold bind in H.
    destruct (main_step udp name_from_text fuel C n) as [[C1| |] t1] eqn:Es;
      try discriminate H.
    destruct (main_loop udp name_from_text fuel rest C1) as [o t2] eqn:El.
    inversion H; subst o tr.
    destruct (main_step_ok _ _ _ _ _ _ _ Es) as (d & Hd & Hp & Hne & Hold).
    destruct (IH _ _ El) as (HF & Hkeep & Hdom).
    split; [|split].
    + rewrite printed_app, Hp. simpl. constructor; [apply Hkeep; exact Hd|exact HF].
    + intros k d0 Hk. apply Hkeep. destruct (decide (k = n)) as [->|Hkn].
      * rewrite Hd, (Hold _ Hk). reflexivity.
      * rewrite Hne by exact Hkn. exact Hk.
    + intros k. rewrite Hdom. destruct (decide (k = n)) as [->|Hkn].
      * split; intros _; [right; left; reflexivity|left; rewrite Hd; eexists; reflexivity].
      * rewrite Hne by exact Hkn. simpl. split.
        -- intros [Hk|Hk]; [left; exact Hk|right; right; exact Hk].
        -- intros [Hk|[Hk|Hk]]; [left; exact Hk|congruence|right; exact Hk].
Qed.

(** ** X8 *)


(** ** X9 *)

(** X9: [print_results] reads only the keys CNAME, A, AAAA and MX: two
    dictionaries that agree on those keys print the same lines, and
    fail the same way; any other key is ignored. *)
Theorem print_results_reads_four_keys (results results' : Dict) :
  (forall k, In k FORMATS -> results !! k = results' !! k) ->
  print_results results = print_results results'.
Proof.
  intros H. unfold print_results.
  assert (G : forall fmts, (forall k, In k fmts -> results !! k = results' !! k) ->
            print_formats fmts results = print_formats fmts results').
  { induction fmts as [|k fmts IH]; intros Hk; [reflexivity|].
    simpl. rewrite (Hk k (or_introl eq_refl)).
    rewrite IH by (intros k' Hk'; apply Hk; right; exact Hk'). reflexivity. }
  exact (G FORMATS H).
Qed.

(** * Witnesses of the further properties *)

Lemma resolver_answer_is_matching_reply_witness :
  match recursive_dns_lookup net_example 3 "example.com." 1 ROOT_SERVERS with
  | (Ok (Some m), tr) => match_first 1 m /\ replied net_example 1 m tr
  | _ => False
  end.
Proof.
  destruct (recursive_dns_lookup net_example 3 "example.com." 1 ROOT_SERVERS)
    as [[[m|]| |] tr] eqn:E.
  - exact (resolver_answer_is_matching_reply net_example 3 "example.com." 1 ROOT_SERVERS
             m tr E).
  - vm_compute in E. discriminate E.
  - vm_compute in E. discriminate E.
  - vm_compute in E. discriminate E.
Defined.

Lemma first_address_match_returned_witness :
  recursive_dns_lookup net_example 1 "example.com." 1 ["192.0.2.53"; "198.41.0.4"] =
  (Ok (Some (mkMessage [rrset1 "example.com." 1 [rd 1 "93.184.216.34"]] [] [])),
   [EvQuery (mkQuery "example.com." 1); EvSend "192.0.2.53" (mkQuery "example.com." 1)]).
Proof.
  apply (first_address_match_returned net_example 0 "example.com." 1 "192.0.2.53"
           ["198.41.0.4"] (mkMessage [rrset1 "example.com." 1 [rd 1 "93.184.216.34"]] [] [])).
  - reflexivity.
  - exists [], (rd 1 "93.184.216.34"), []. split; [reflexivity|]. split; [constructor|reflexivity].
Defined.

Lemma all_timeouts_not_found_witness :
  recursive_dns_lookup net_down 1 "example.com." 1 ROOT_SERVERS =
  (Ok None, EvQuery (mkQuery "example.com." 1) :: sends (mkQuery "example.com." 1) ROOT_SERVERS).
Proof.
  apply (all_timeouts_not_found net_down 0 "example.com." 1 ROOT_SERVERS).
  - discriminate.
  - unfold ROOT_SERVERS. repeat constructor.
Defined.

Lemma cname_to_itself_never_resolves_witness :
  recursive_dns_lookup net_alias 4 "example.com" 28 ROOT_SERVERS =
  (OutOfFuel, concat (repeat [EvQuery (mkQuery "example.com" 28);
                              EvSend "198.41.0.4" (mkQuery "example.com" 28)] 4)).
Proof.
  apply (cname_to_itself_never_resolves net_alias 4 "example.com" 28 www_answer
           [rd 1 "93.184.216.34"] (rd 5 "example.com.") []).
  - discriminate.
  - reflexivity.
  - reflexivity.
  - constructor; [split; discriminate|constructor].
  - reflexivity.
  - reflexivity.
Defined.

Lemma resolver_keeps_record_type_witness :
  let (o, tr) := recursive_dns_lookup net_mx_then_referral 3 "example.com." 1
                   ["10.0.0.1"; "10.0.0.2"] in
  Forall (query_of_type 1) tr.
Proof.
  destruct (recursive_dns_lookup net_mx_then_referral 3 "example.com." 1
              ["10.0.0.1"; "10.0.0.2"]) as [o tr] eqn:E.
  exact (resolver_keeps_record_type net_mx_then_referral 3 "example.com." 1
           ["10.0.0.1"; "10.0.0.2"] o tr E).
Defined.

Lemma print_collected_results_witness :
  match collect_results net_example from_text_abs 5 "example.com" with
  | (Ok d, _) =>
      print_results d = (formatted_lines d, true) /\
      length (formatted_lines d) =
        (length (default [] (d !! "CNAME")) + length (default [] (d !! "A")) +
         length (default [] (d !! "AAAA")) + length (default [] (d !! "MX")))%nat
  | _ => False
  end.
Proof.
  destruct (collect_results net_example from_text_abs 5 "example.com") as [[d| |] tr] eqn:E.
  - exact (print_collected_results net_example from_text_abs 5 "example.com" d tr E).
  - vm_compute in E. discriminate E.
  - vm_compute in E. discriminate E.
Defined.

Lemma main_loop_prints_cache_witness :
  match main_loop net_example from_text_abs 5 ["example.com"; "example.com"] ∅ with
  | (Ok C', tr) =>
      Forall2 (fun n d => C' !! n = Some d) ["example.com"; "example.com"] (printed tr) /\
      (forall k d, (∅ : gmap string Dict) !! k = Some d -> C' !! k = Some d) /\
      (forall k, is_Some (C' !! k) <->
         is_Some ((∅ : gmap string Dict) !! k) \/ In k ["example.com"; "example.com"])
  | _ => False
  end.
Proof.
  destruct (main_loop net_example from_text_abs 5 ["example.com"; "example.com"] ∅)
    as [[C'| |] tr] eqn:E.
  - exact (main_loop_prints_cache net_example from_text_abs 5 ["example.com"; "example.com"]
             ∅ C' tr E).
  - vm_compute in E. discriminate E.
  - vm_compute in E. discriminate E.
Defined.


Lemma print_results_reads_four_keys_witness :
  print_results (<["A" := [EAddr "example.com." "93.184.216.34"]]> ∅) =
  print_results (<["URL" := [EAddr "x." "y"]]> (<["A" := [EAddr "example.com." "93.184.216.34"]]> ∅)).
Proof.
  apply print_results_reads_four_keys.
  intros k [<-|[<-|[<-|[<-|[]]]]]; reflexivity.
Defined.
